(** * FreeSurfaceCalculator: the free-surface extraction of OpenFOAMTools

    A shallow embedding of [modules/FreeSurfaceCalculator.py].  Samples are
    IEEE binary64 numbers (numpy's float64), modelled by Rocq's primitive
    floats; Python exceptions are modelled by an error monad whose failures
    carry the name of the exception class. *)

From Stdlib Require Import List String Ascii Bool Arith Lia PrimFloat.
Import ListNotations.

Set Warnings "-inexact-float".

Local Open Scope string_scope.
Local Open Scope list_scope.

(** ** Exceptions *)

Module Py.

(** The result of running a piece of Python: a value, or a raised exception
    identified by the name of its class. *)
Inductive outcome (A : Type) : Type :=
| Return (a : A)
| Raise (exc : string).

Arguments Return {A} a.
Arguments Raise {A} exc.

Definition bind {A B : Type} (c : outcome A) (k : A -> outcome B) : outcome B :=
  match c with
  | Return a => k a
  | Raise e => Raise e
  end.

Definition raises {A : Type} (c : outcome A) : Prop :=
  exists e, c = Raise e.

End Py.

Import Py.

Notation "x <- c ;; k" := (Py.bind c (fun x => k))
  (at level 61, c at next level, right associativity).

Definition IndexError : string := "IndexError".
Definition UnboundLocalError : string := "UnboundLocalError".
Definition ValueError : string := "ValueError".
Definition TypeError : string := "TypeError".

(** ** Arrays *)

(** [a[i]] for a one-dimensional array and a non-negative index: numpy raises
    IndexError when [i] is not below the size. *)
Definition getitem (a : list float) (i : nat) : outcome float :=
  match nth_error a i with
  | Some v => Return v
  | None => Raise IndexError
  end.

(** What [np.loadtxt] hands back: a one-dimensional array (a file with a
    single row or a single column) or a two-dimensional one, row by row. *)
Inductive ndarray : Type :=
| Arr1 (v : list float)
| Arr2 (rows : list (list float)).

Fixpoint column_rows (k : nat) (rows : list (list float)) : outcome (list float) :=
  match rows with
  | [] => Return []
  | r :: rest =>
      v <- getitem r k ;;
      vs <- column_rows k rest ;;
      Return (v :: vs)
  end.

(** [data[:,k]]: too many indices for a one-dimensional array. *)
Definition column (k : nat) (data : ndarray) : outcome (list float) :=
  match data with
  | Arr1 _ => Raise IndexError
  | Arr2 rows => column_rows k rows
  end.

(** ** numpy.interp

    [np.interp(x, xp, fp)] as numpy's compiled routine evaluates it for a
    scalar [x], default [left]/[right] and no [period] ([arr_interp] and
    [binary_search_with_guess] of numpy's [compiled_base.c]).  The routine
    locates [x] in [xp] and does not check that [xp] is increasing: the
    documentation asks for increasing [xp] and calls the result meaningless
    otherwise.  For [xp] of at most four points (the only call of this
    module passes two) the search is the linear one below. *)
Module Np.

Inductive position : Type :=
| Before            (* x < xp[0]: the result is left = fp[0] *)
| After             (* x > xp[-1]: the result is right = fp[-1] *)
| At (j : nat).     (* the index the search stops at *)

(** [for (i = 1; i < len && key >= arr[i]; ++i); return i - 1;] with
    [rest] the elements from index [i] on. *)
Fixpoint linear_search (key : float) (rest : list float) (i : nat) : nat :=
  match rest with
  | [] => i - 1
  | a :: rest' => if leb a key then linear_search key rest' (S i) else i - 1
  end.

(** [binary_search_with_guess]: keys outside the range first, the upper end
    before the lower one. *)
Definition search (key : float) (arr : list float) : position :=
  if ltb (last arr nan) key then After
  else if ltb key (hd nan arr) then Before
  else At (linear_search key (tl arr) 1).

Definition interp (x : float) (xp fp : list float) : outcome float :=
  if negb (List.length xp =? List.length fp)%nat then Raise ValueError
  else match xp with
  | [] => Raise ValueError
  | [xp0] =>
      Return (if ltb x xp0 then hd nan fp
              else if ltb xp0 x then last fp nan
              else hd nan fp)
  | _ =>
      if is_nan x then Return x
      else match search x xp with
      | Before => Return (hd nan fp)
      | After => Return (last fp nan)
      | At j =>
          if (j =? List.length xp - 1)%nat then Return (nth j fp nan)
          else if eqb (nth j xp nan) x then Return (nth j fp nan)
          else
            let slope := div (sub (nth (S j) fp nan) (nth j fp nan))
                             (sub (nth (S j) xp nan) (nth j xp nan)) in
            let r := add (mul slope (sub x (nth j xp nan))) (nth j fp nan) in
            if is_nan r then
              let r' := add (mul slope (sub x (nth (S j) xp nan))) (nth (S j) fp nan) in
              if is_nan r' && eqb (nth j fp nan) (nth (S j) fp nan)
              then Return (nth j fp nan) else Return r'
            else Return r
      end
  end.

End Np.

(** ** The extraction of one timestep *)

Section Extractor.

(** The interpolation routine; [Np.interp] in the program. *)
Variable np_interp : float -> list float -> list float -> outcome float.

(** [alpha[i] > 0.5 and alpha[i+1] < 0.5], read left to right: the second
    sample is only read when the first test holds. *)
Definition crossing_test (alpha : list float) (i : nat) : outcome bool :=
  a <- getitem alpha i ;;
  if ltb 0.5%float a then
    b <- getitem alpha (i + 1) ;;
    Return (ltb b 0.5%float)
  else Return false.

(** [for i in range(alpha.size): if ...: break], from iteration [k] with
    [todo] iterations left.  The value is the binding of [i] when the loop is
    left; [i] is the binding before it ([None] when the name is unbound). *)
Fixpoint scan_from (alpha : list float) (k todo : nat) (i : option nat)
  : outcome (option nat) :=
  match todo with
  | O => Return i
  | S todo' =>
      hit <- crossing_test alpha k ;;
      if hit then Return (Some k)
      else scan_from alpha (S k) todo' (Some k)
  end.

Definition scan (alpha : list float) (i : option nat) : outcome (option nat) :=
  scan_from alpha 0 (List.length alpha) i.

(** Reading the local variable [i]. *)
Definition load_i (i : option nat) : outcome nat :=
  match i with
  | Some n => Return n
  | None => Raise UnboundLocalError
  end.

(** Lines 95-100: the scan followed by
    [np.interp(0.5, [alpha[i], alpha[i+1]], [y[i], y[i+1]])].  The value is
    the interpolated height together with the binding of [i] left behind. *)
Definition free_surface (i0 : option nat) (y alpha : list float)
  : outcome (float * option nat) :=
  i <- scan alpha i0 ;;
  n <- load_i i ;;
  a0 <- getitem alpha n ;;
  a1 <- getitem alpha (n + 1) ;;
  y0 <- getitem y n ;;
  y1 <- getitem y (n + 1) ;;
  ys <- np_interp 0.5%float [a0; a1] [y0; y1] ;;
  Return (ys, i).

(** Lines 91-100 on the table [np.loadtxt] returned: both sequences are
    columns of the one table. *)
Definition extract (i0 : option nat) (table : ndarray)
  : outcome (float * option nat) :=
  y <- column 0 table ;;
  alpha <- column 1 table ;;
  free_surface i0 y alpha.

End Extractor.

(** ** Strings and paths *)

Definition newline : string := String (ascii_of_nat 10) EmptyString.

Fixpoint drop (n : nat) (s : string) : string :=
  match n, s with
  | O, _ => s
  | S _, EmptyString => EmptyString
  | S n', String _ s' => drop n' s'
  end.

(** [s[-k:]] for [k > 0]: the last [k] characters, the whole of a shorter
    string. *)
Definition last_chars (k : nat) (s : string) : string :=
  drop (String.length s - k) s.

Definition startswith (s pre : string) : bool := String.prefix pre s.

Definition endswith (s suf : string) : bool :=
  String.eqb (last_chars (String.length suf) s) suf.

(** [os.path.basename]: what follows the last slash; [cur] is what follows
    the last slash met so far. *)
Fixpoint basename_from (cur p : string) : string :=
  match p with
  | EmptyString => cur
  | String c p' =>
      if Ascii.eqb c "/" then basename_from p' p' else basename_from cur p'
  end.

Definition basename (p : string) : string := basename_from p p.

(** [os.path.join(a, b)] for two components. *)
Definition path_join (a b : string) : string :=
  if startswith b "/" then b
  else if String.eqb a EmptyString || endswith a "/" then a ++ b
  else a ++ "/" ++ b.

(** Lines 83-87: the first listed file that ends in [.xy] and is not hidden;
    [None] is Python's [None] left in [fileName]. *)
Fixpoint select_file (files : list string) : option string :=
  match files with
  | [] => None
  | file :: rest =>
      if endswith file ".xy" && negb (startswith file ".") then Some file
      else select_file rest
  end.

(** ** The calculator *)

(** One entry of [self._data]: the list [[time, ys]]. *)
Definition row : Type := (string * float)%type.

Record FreeSurfaceCalculator : Type := mkCalculator {
  _parentDir : string;
  _data : list row
}.

(** [__init__] *)
Definition __init__ (parentDir : string) : FreeSurfaceCalculator :=
  mkCalculator parentDir [].

Section Calculator.

(** The file system and the libraries the calculator reads through. *)
Variable glob : string -> list string.
Variable listdir : string -> outcome (list string).
Variable loadtxt : string -> outcome ndarray.
Variable np_interp : float -> list float -> list float -> outcome float.
(** [open(name, 'w')], and the text [format] gives a float64. *)
Variable open_w : string -> outcome unit.
Variable float_str : float -> string.

(** The body of the loop over [dirs] (lines 77-103), with [self._data] and
    the local [i] passed along.  An exception ends the run; the entries
    appended before it are not kept in the model. *)
Fixpoint calculate_dirs (dirs : list string) (data : list row) (i : option nat)
  : outcome (list row) :=
  match dirs with
  | [] => Return data
  | dir :: rest =>
      files <- listdir dir ;;
      (* os.path.join rejects the None left when no file qualifies *)
      fileName <- match select_file files with
                  | Some f => Return f
                  | None => Raise TypeError
                  end ;;
      table <- loadtxt (path_join dir fileName) ;;
      r <- extract np_interp i table ;;
      calculate_dirs rest (data ++ [(basename dir, fst r)]) (snd r)
  end.

(** [_calculate]; the local [i] starts unbound at every call. *)
Definition _calculate (self : FreeSurfaceCalculator) : outcome FreeSurfaceCalculator :=
  data <- calculate_dirs (glob (path_join (_parentDir self) "[0-9]*")) (_data self) None ;;
  Return (mkCalculator (_parentDir self) data).

(** [outputCsvFile] after lines 114-115. *)
Definition csv_name (outputCsvFile : string) : string :=
  if negb (String.eqb (last_chars 4 outputCsvFile) ".csv")
  then outputCsvFile ++ ".csv"
  else outputCsvFile.

(** Line 119: the row as its label, a comma and a space, the value, a newline. *)
Definition format_row (r : row) : string :=
  fst r ++ ", " ++ float_str (snd r) ++ newline.

(** Lines 118-119: every [write] adds to what the file holds. *)
Definition write_rows (data : list row) : string :=
  fold_left (fun written r => (written ++ format_row r)%string) data EmptyString.

(** Lines 114-119: the file written, as its name and its text. *)
Definition write_csv (data : list row) (outputCsvFile : string)
  : outcome (string * string) :=
  _ <- open_w (csv_name outputCsvFile) ;;
  Return (csv_name outputCsvFile, write_rows data).

(** One call of [writeCsvOutput], with [glob], [listdir], [loadtxt] and
    [open_w] the file system as the call finds it: the instance afterwards
    and the file the call writes.  [writeCsvOutput_fs] below carries the
    file system from one call to the next. *)
Definition writeCsvOutput (self : FreeSurfaceCalculator) (outputCsvFile : string)
  : outcome (FreeSurfaceCalculator * (string * string)) :=
  self' <- _calculate self ;;
  file <- write_csv (_data self') outputCsvFile ;;
  Return (self', file).

End Calculator.

(** ** What the claims speak of *)

(** The pair [(i, i+1)] is a strict descending crossing of 0.5. *)
Definition descending (alpha : list float) (i : nat) : bool :=
  match nth_error alpha i, nth_error alpha (S i) with
  | Some a, Some b => ltb 0.5%float a && ltb b 0.5%float
  | _, _ => false
  end.

(** The pair [(i, i+1)] is a strict ascending crossing of 0.5. *)
Definition ascending (alpha : list float) (i : nat) : bool :=
  match nth_error alpha i, nth_error alpha (S i) with
  | Some a, Some b => ltb a 0.5%float && ltb 0.5%float b
  | _, _ => false
  end.

Definition first_crossing (alpha : list float) (i : nat) : Prop :=
  descending alpha i = true /\ forall j, j < i -> descending alpha j = false.

(** The interpolation formula as the specification words it. *)
Definition spec_interpolation (c0 c1 f0 f1 : float) : float :=
  (c0 + (0.5 - f0) * (c1 - c0) / (f1 - f0))%float.

(** The name ends in [.csv]. *)
Definition has_csv_extension (name : string) : Prop :=
  exists stem, name = (stem ++ ".csv")%string.

(** One line of the output as the specification words it. *)
Definition csv_line (float_str : float -> string) (r : row) : string :=
  fst r ++ ", " ++ float_str (snd r) ++ newline.

(** A small data set: two timestep directories, each with a hidden file, a
    text file and one sampled profile. *)
Module Example.

Definition glob (pattern : string) : list string := ["./0.1"; "./0.2"].

Definition listdir (dir : string) : outcome (list string) :=
  Return [".swap.xy"; "notes.txt"; "line.xy"; "other.xy"].

Definition loadtxt (path : string) : outcome ndarray :=
  Return (Arr2 [[0; 0.9]; [1; 0.1]]%float).

Definition open_w (name : string) : outcome unit := Return tt.

Definition float_str (v : float) : string :=
  if eqb v 1 then "1.0" else "0.0".

Definition data : list row := [("0.1", 1%float); ("0.2", 1%float)].

End Example.

(** ** The script [scripts/writeFreeSurfaceCsv.py] *)

Section Script.

Variable glob : string -> list string.
Variable listdir : string -> outcome (list string).
Variable loadtxt : string -> outcome ndarray.
Variable np_interp : float -> list float -> list float -> outcome float.
Variable open_w : string -> outcome unit.
Variable float_str : float -> string.

(** Lines 74-76: [--dir] is optional and argparse leaves [None] for it. *)
Definition parent_dir (dir : option string) : string :=
  match dir with
  | None => "."
  | Some d => d
  end.

(** Lines 74-81 on the parsed arguments [dir] and [out]: a new calculator
    and one call of [writeCsvOutput]. *)
Definition writeFreeSurfaceCsv (dir : option string) (out : string)
  : outcome (FreeSurfaceCalculator * (string * string)) :=
  let parentDir := parent_dir dir in
  let outputFile := out in
  let calculator := __init__ parentDir in
  writeCsvOutput glob listdir loadtxt np_interp open_w float_str
    calculator outputFile.

End Script.

(** Data sets at the edges: no timestep directory at all, and directories
    that hold no visible profile. *)
Module Edge.

Definition glob_none (pattern : string) : list string := [].

Definition listdir_hidden (dir : string) : outcome (list string) :=
  Return [".swap.xy"; "notes.txt"].

Definition table : list (list float) :=
  [[0; 0.9]; [1; 0.6]; [2; 0.4]; [3; 0.1]]%float.

End Edge.

(** The name holds no slash. *)
Fixpoint slash_free (name : string) : bool :=
  match name with
  | EmptyString => true
  | String c name' => negb (Ascii.eqb c "/") && slash_free name'
  end.

(** ** Calls in sequence *)

Section FileSystem.

(** The states of the file system and what the program does to one. *)
Variable fs : Type.
Variable glob : fs -> string -> list string.
Variable listdir : fs -> string -> outcome (list string).
Variable loadtxt : fs -> string -> outcome ndarray.
Variable open_w : fs -> string -> outcome unit.
(** The state once the file of that name holds that text. *)
Variable create : fs -> string -> string -> fs.
Variable np_interp : float -> list float -> list float -> outcome float.
Variable float_str : float -> string.

(** [writeCsvOutput] on the file system [st]: the pass reads [st], and the
    file written is part of the state the next call finds. *)
Definition writeCsvOutput_fs (st : fs) (self : FreeSurfaceCalculator)
    (outputCsvFile : string) : outcome (FreeSurfaceCalculator * fs) :=
  r <- writeCsvOutput (glob st) (listdir st) (loadtxt st) np_interp
         (open_w st) float_str self outputCsvFile ;;
  Return (fst r, create st (fst (snd r)) (snd (snd r))).

End FileSystem.

(** A small file system: one working directory, spelled [.] or left out,
    that holds timestep directories of sampled profiles and regular files.
    Files can be created in the working directory only. *)
Module Disk.

Inductive entry : Type :=
| Directory (files : list (string * ndarray))
| Regular (text : string).

Definition state : Type := list (string * entry).

(** The name of an entry of the working directory. *)
Definition local (path : string) : string :=
  if String.prefix "./" path then drop 2 path else path.

Definition starts_with_digit (name : string) : bool :=
  match name with
  | EmptyString => false
  | String c _ => (48 <=? nat_of_ascii c)%nat && (nat_of_ascii c <=? 57)%nat
  end.

Fixpoint lookup (name : string) (st : state) : option entry :=
  match st with
  | [] => None
  | e :: rest => if String.eqb (fst e) name then Some (snd e) else lookup name rest
  end.

Definition numbered (st : state) : list string :=
  map fst (filter (fun e => starts_with_digit (fst e)) st).

(** The entries whose name starts with a digit, files as well as
    directories, spelled as the pattern spells the working directory. *)
Definition glob (st : state) (pattern : string) : list string :=
  if String.eqb pattern "./[0-9]*" then map (fun n => "./" ++ n)%string (numbered st)
  else if String.eqb pattern "[0-9]*" then numbered st
  else [].

Definition listdir (st : state) (path : string) : outcome (list string) :=
  match lookup (local path) st with
  | Some (Directory files) => Return (map fst files)
  | Some (Regular _) => Raise "NotADirectoryError"
  | None => Raise "FileNotFoundError"
  end.

Fixpoint load_from (st : state) (p : string) : outcome ndarray :=
  match st with
  | [] => Raise "FileNotFoundError"
  | (n, Directory files) :: rest =>
      match find (fun f => String.eqb p (n ++ "/" ++ fst f)) files with
      | Some f => Return (snd f)
      | None => load_from rest p
      end
  | (n, Regular _) :: rest =>
      if String.eqb p n then Raise ValueError else load_from rest p
  end.

Definition loadtxt (st : state) (path : string) : outcome ndarray :=
  load_from st (local path).

(** [open(name, 'w')]: an OSError below the working directory. *)
Definition open_w (st : state) (name : string) : outcome unit :=
  if slash_free (local name) then
    match lookup (local name) st with
    | Some (Directory _) => Raise "IsADirectoryError"
    | _ => Return tt
    end
  else Raise "OSError".

Fixpoint store (name text : string) (st : state) : state :=
  match st with
  | [] => [(name, Regular text)]
  | e :: rest =>
      if String.eqb (fst e) name then (name, Regular text) :: rest
      else e :: store name text rest
  end.

Definition create (st : state) (name text : string) : state :=
  store (local name) text st.

(** One timestep directory with one profile. *)
Definition one_timestep : state :=
  [("0.1", Directory [("line.xy", Arr2 [[0; 0.9]; [1; 0.1]]%float)])].

Definition first_rows : list row := [("0.1", 1%float)].

Definition first_text : string := ("0.1, 1.0" ++ newline)%string.

Definition run (st : state) (self : FreeSurfaceCalculator) (out : string)
  : outcome (FreeSurfaceCalculator * state) :=
  writeCsvOutput_fs state glob listdir loadtxt open_w create Np.interp
    Example.float_str st self out.

End Disk.

(** * Properties *)

(** ** The scan *)

Lemma getitem_inside (a : list float) (i : nat) :
  i < List.length a -> getitem a i = Return (nth i a nan).
Proof.
  intros Hi. unfold getitem.
  rewrite (nth_error_nth' a nan Hi). reflexivity.
Qed.

Lemma getitem_outside (a : list float) (i : nat) :
  List.length a <= i -> getitem a i = Raise IndexError.
Proof.
  intros Hi. unfold getitem.
  apply nth_error_None in Hi. rewrite Hi. reflexivity.
Qed.

Lemma descending_inside (alpha : list float) (i : nat) :
  descending alpha i = true -> S i < List.length alpha.
Proof.
  unfold descending. intros H.
  destruct (nth_error alpha (S i)) eqn:E.
  - apply nth_error_Some. congruence.
  - destruct (nth_error alpha i); discriminate.
Qed.

Lemma descending_nth (alpha : list float) (i : nat) :
  S i < List.length alpha ->
  descending alpha i =
  ltb 0.5%float (nth i alpha nan) && ltb (nth (S i) alpha nan) 0.5%float.
Proof.
  intros Hi. unfold descending.
  rewrite (nth_error_nth' alpha nan Hi).
  rewrite (nth_error_nth' alpha nan (Nat.lt_succ_l _ _ Hi)).
  reflexivity.
Qed.

Lemma crossing_test_inside (alpha : list float) (j : nat) :
  S j < List.length alpha ->
  crossing_test alpha j = Return (descending alpha j).
Proof.
  intros Hj. unfold crossing_test.
  rewrite getitem_inside by lia. cbn [bind].
  rewrite Nat.add_1_r, (getitem_inside alpha (S j)) by assumption.
  rewrite descending_nth by assumption.
  destruct (ltb 0.5%float (nth j alpha nan)); reflexivity.
Qed.

(** At the last index the test reads [alpha[N]] as soon as the last sample
    exceeds 0.5. *)
Lemma crossing_test_last (alpha : list float) (j : nat) :
  S j = List.length alpha ->
  crossing_test alpha j =
  if ltb 0.5%float (nth j alpha nan) then Raise IndexError else Return false.
Proof.
  intros Hj. unfold crossing_test.
  rewrite getitem_inside by lia. cbn [bind].
  rewrite Nat.add_1_r, (getitem_outside alpha (S j)) by lia.
  destruct (ltb 0.5%float (nth j alpha nan)); reflexivity.
Qed.

Lemma scan_from_found (alpha : list float) (i : nat) :
  descending alpha i = true ->
  forall todo k i0,
    k <= i < k + todo ->
    (forall j, k <= j < i -> descending alpha j = false) ->
    scan_from alpha k todo i0 = Return (Some i).
Proof.
  intros Hd. pose proof (descending_inside _ _ Hd) as Hlen.
  induction todo as [|todo IH]; intros k i0 Hk Hbefore; [lia|].
  cbn [scan_from].
  rewrite crossing_test_inside by lia. cbn [bind].
  destruct (Nat.eq_dec k i) as [->|Hne].
  - rewrite Hd. reflexivity.
  - rewrite Hbefore by lia. apply IH; [lia|].
    intros j Hj. apply Hbefore. lia.
Qed.

Lemma crossing_test_returns (alpha : list float) (j : nat) (b : bool) :
  crossing_test alpha j = Return b -> descending alpha j = b.
Proof.
  unfold crossing_test, descending, getitem. rewrite Nat.add_1_r.
  destruct (nth_error alpha j) as [a|]; cbn [bind]; [|discriminate].
  destruct (ltb 0.5%float a); cbn [bind andb].
  - destruct (nth_error alpha (S j)); cbn [bind]; congruence.
  - destruct (nth_error alpha (S j)); congruence.
Qed.

(** Every way the loop can be left without an exception: it did not run, it
    broke at the first descending pair, or it ran to its last iteration. *)
Lemma scan_from_sound (alpha : list float) :
  forall todo k i0 r,
    scan_from alpha k todo i0 = Return r ->
    (todo = 0 /\ r = i0) \/
    (exists i, r = Some i /\ k <= i < k + todo /\ descending alpha i = true /\
               forall j, k <= j < i -> descending alpha j = false) \/
    (0 < todo /\ r = Some (k + todo - 1) /\
     forall j, k <= j < k + todo -> descending alpha j = false).
Proof.
  induction todo as [|todo IH]; intros k i0 r H; cbn [scan_from] in H.
  - left. split; congruence.
  - right.
    destruct (crossing_test alpha k) as [[|]|] eqn:Hc; cbn [bind] in H;
      [| |discriminate]; apply crossing_test_returns in Hc.
    + left. exists k. injection H as <-. repeat split; try lia. assumption.
    + apply IH in H.
      destruct H as [[-> ->]|[(i & -> & Hi & Hdi & Hb)|(Ht & -> & Hb)]].
      * right. split; [lia|]. split; [f_equal; lia|].
        intros j Hj. replace j with k by lia. assumption.
      * left. exists i. repeat split; try lia; [assumption|].
        intros j Hj. destruct (Nat.eq_dec j k) as [->|]; [assumption|].
        apply Hb. lia.
      * right. split; [lia|]. split; [f_equal; lia|].
        intros j Hj. destruct (Nat.eq_dec j k) as [->|]; [assumption|].
        apply Hb. lia.
Qed.

(** Without a descending pair the loop over a non-empty array either reads
    [alpha[N]] or is left with [i = N - 1]. *)
Lemma scan_from_none (alpha : list float) :
  (forall j, descending alpha j = false) ->
  forall todo k i0,
    0 < todo -> k + todo = List.length alpha ->
    scan_from alpha k todo i0 =
    if ltb 0.5%float (nth (List.length alpha - 1) alpha nan)
    then Raise IndexError else Return (Some (List.length alpha - 1)).
Proof.
  intros Hnone.
  induction todo as [|todo IH]; intros k i0 Hpos Hlen; [lia|].
  cbn [scan_from].
  destruct todo as [|todo].
  - rewrite crossing_test_last by lia.
    replace (List.length alpha - 1) with k by lia.
    destruct (ltb 0.5%float (nth k alpha nan)); reflexivity.
  - rewrite crossing_test_inside by lia. rewrite Hnone. cbn [bind].
    apply IH; lia.
Qed.

(** ** The interpolation call *)

Section ExtractorFacts.

Variable np_interp : float -> list float -> list float -> outcome float.

(** At the first descending pair the call is made on that pair. *)
Lemma free_surface_at_crossing (i0 : option nat) (y alpha : list float) (i : nat) :
  first_crossing alpha i ->
  S i < List.length y ->
  free_surface np_interp i0 y alpha =
  (ys <- np_interp 0.5%float [nth i alpha nan; nth (S i) alpha nan]
                             [nth i y nan; nth (S i) y nan] ;;
   Return (ys, Some i)).
Proof.
  intros [Hd Hfirst] Hy.
  pose proof (descending_inside _ _ Hd) as Hlen.
  unfold free_surface, scan.
  rewrite (scan_from_found alpha i Hd) by (try lia; intros j Hj; apply Hfirst; lia).
  cbn [bind load_i]. rewrite Nat.add_1_r.
  rewrite !getitem_inside by lia. reflexivity.
Qed.

(** Without a descending pair the run ends in the read of [alpha[N]]. *)
Lemma free_surface_none (i0 : option nat) (y alpha : list float) :
  alpha <> [] ->
  (forall j, descending alpha j = false) ->
  free_surface np_interp i0 y alpha = Raise IndexError.
Proof.
  intros Hne Hnone.
  assert (0 < List.length alpha) as Hpos
    by (destruct alpha; [congruence|cbn; lia]).
  unfold free_surface, scan.
  rewrite (scan_from_none alpha Hnone) by lia.
  destruct (ltb 0.5%float (nth (List.length alpha - 1) alpha nan)); [reflexivity|].
  cbn [bind load_i].
  rewrite getitem_inside by lia. cbn [bind].
  rewrite getitem_outside by lia. reflexivity.
Qed.

(** C4: when a first descending pair [i] is followed by another descending
    pair [j], the interpolation routine is called on the samples of pair [i]
    alone, and [i] is what the scan leaves behind. *)
Theorem first_crossing_wins (i0 : option nat) (y alpha : list float) (i j : nat) :
  List.length y = List.length alpha ->
  first_crossing alpha i ->
  i < j -> descending alpha j = true ->
  free_surface np_interp i0 y alpha =
  (ys <- np_interp 0.5%float [nth i alpha nan; nth (S i) alpha nan]
                             [nth i y nan; nth (S i) y nan] ;;
   Return (ys, Some i)).
Proof.
  intros Hlen Hfirst _ _.
  apply free_surface_at_crossing; [assumption|].
  rewrite Hlen. apply descending_inside, Hfirst.
Qed.

(** C5: the scan stops on the pair [(i, i+1)] exactly when it is the first
    strict descending crossing; an array whose only crossings are ascending
    has no pair the scan stops on. *)
Theorem scan_selects_descending_only (alpha : list float) (i0 : option nat) :
  (forall i, (scan alpha i0 = Return (Some i) /\ S i < List.length alpha)
             <-> first_crossing alpha i) /\
  ((exists j, ascending alpha j = true) ->
   (forall j, descending alpha j = false) ->
   forall i, ~ (scan alpha i0 = Return (Some i) /\ S i < List.length alpha)).
Proof.
  assert (forall i, scan alpha i0 = Return (Some i) /\ S i < List.length alpha
                    <-> first_crossing alpha i) as Hiff.
  { intros i. split.
    - intros [Hscan Hi]. apply scan_from_sound in Hscan.
      destruct Hscan as [[Hz _]|[(i' & Heq & _ & Hd & Hb)|(_ & Heq & _)]].
      + lia.
      + injection Heq as <-. split; [assumption|].
        intros j Hj. apply Hb. lia.
      + injection Heq as ->. lia.
    - intros [Hd Hfirst]. split; [|apply descending_inside; assumption].
      apply scan_from_found; [assumption| |].
      + apply descending_inside in Hd. lia.
      + intros j Hj. apply Hfirst. lia. }
  split; [exact Hiff|].
  intros _ Hnone i Hsel. apply Hiff in Hsel. destruct Hsel as [Hd _].
  rewrite Hnone in Hd. discriminate.
Qed.

(** C2, amended: when no adjacent pair of the fraction sequence straddles
    0.5, the test of the scan holds at no index, the scan stops on no pair,
    and the run does not end in NoCrossingFound, an exception the code does
    not have.  How the run ends once the scan has run out is left open. *)
Theorem no_crossing_selects_no_pair (i0 : option nat) (y alpha : list float) :
  (forall j, descending alpha j = false) ->
  (forall j, ascending alpha j = false) ->
  (forall j, crossing_test alpha j <> Return true) /\
  (forall i, ~ (scan alpha i0 = Return (Some i) /\ S i < List.length alpha)) /\
  free_surface np_interp i0 y alpha <> Raise "NoCrossingFound".
Proof.
  intros Hnone _. split; [|split].
  - intros j Hj. apply crossing_test_returns in Hj.
    rewrite Hnone in Hj. discriminate.
  - intros i [Hscan Hi]. apply scan_from_sound in Hscan.
    destruct Hscan as [[Hz _]|[(i' & _ & _ & Hd & _)|(_ & Heq & _)]].
    + lia.
    + rewrite Hnone in Hd. discriminate.
    + injection Heq as ->. lia.
  - destruct alpha as [|a alpha].
    + unfold free_surface, scan. cbn [List.length scan_from bind].
      destruct i0 as [n|]; cbn [load_i bind]; [|discriminate].
      rewrite getitem_outside by (cbn; lia). discriminate.
    + rewrite free_surface_none by (assumption || discriminate). discriminate.
Qed.

(** C6, amended: with fewer than two samples the extraction fails whatever
    the interpolation routine is, hence before it is called; the exception
    is IndexError (UnboundLocalError when the array is empty and [i] is
    unbound). *)
Theorem short_input_raises (i0 : option nat) (y alpha : list float) :
  List.length alpha < 2 ->
  free_surface np_interp i0 y alpha =
  Raise (match alpha, i0 with
         | [], None => UnboundLocalError
         | _, _ => IndexError
         end).
Proof.
  intros Hlen. destruct alpha as [|a [|b rest]]; [| |cbn in Hlen; lia].
  - unfold free_surface, scan. cbn [List.length scan_from bind].
    destruct i0 as [n|]; [|reflexivity].
    cbn [load_i bind]. rewrite getitem_outside by (cbn; lia). reflexivity.
  - apply free_surface_none; [discriminate|].
    intros [|[|j]]; reflexivity.
Qed.

End ExtractorFacts.

(** ** numpy.interp on the pair the scan selects *)

(** Where [xp] increases, the routine interpolates. *)
Example interp_increasing_pair :
  Np.interp 0.5%float [0.4; 0.6]%float [2; 1]%float = Return 1.5%float.
Proof. vm_compute. reflexivity. Qed.

(** On a descending pair [xp] decreases: 0.5 lies above [xp[-1]], and the
    routine answers [right], the last of [fp]. *)
Lemma interp_descending_pair (a0 a1 y0 y1 : float) :
  ltb a1 0.5%float = true ->
  Np.interp 0.5%float [a0; a1] [y0; y1] = Return y1.
Proof.
  intros Hlt. unfold Np.interp, Np.search.
  cbn [List.length Nat.eqb negb last hd].
  replace (is_nan 0.5%float) with false by (vm_compute; reflexivity).
  rewrite Hlt. reflexivity.
Qed.

(** With numpy's routine the height logged at the first descending pair is
    the upper sample [y[i+1]]. *)
Lemma free_surface_descending (i0 : option nat) (y alpha : list float) (i : nat) :
  first_crossing alpha i ->
  S i < List.length y ->
  free_surface Np.interp i0 y alpha = Return (nth (S i) y nan, Some i).
Proof.
  intros Hfirst Hy.
  rewrite (free_surface_at_crossing Np.interp i0 y alpha i Hfirst Hy).
  rewrite interp_descending_pair; [reflexivity|].
  destruct Hfirst as [Hd _].
  rewrite descending_nth in Hd by (apply descending_inside; assumption).
  apply andb_prop in Hd. apply Hd.
Qed.

(** C1: on coordinate [0,1,2,3] and fraction [0.9,0.6,0.4,0.1] the scan
    stops at pair 1 and the height logged is 2, the upper coordinate of the
    pair, while the interpolation formula gives 1.5. *)
Theorem descending_example_logs_endpoint :
  free_surface Np.interp None [0; 1; 2; 3]%float [0.9; 0.6; 0.4; 0.1]%float
    = Return (2%float, Some 1) /\
  spec_interpolation 1 2 0.6 0.4 = 1.5%float /\
  eqb 2 1.5 = false.
Proof. repeat split; vm_compute; reflexivity. Qed.

(** C3: on [0.9, 0.8] the loop reaches [i = 1], the last index; there
    [alpha[1]] is read, [alpha[2]] is read next, and the scan ends in
    IndexError. *)
Theorem scan_reads_past_last :
  getitem [0.9; 0.8]%float 1 = Return 0.8%float /\
  getitem [0.9; 0.8]%float (1 + 1) = Raise IndexError /\
  crossing_test [0.9; 0.8]%float 1 = Raise IndexError /\
  scan [0.9; 0.8]%float None = Raise IndexError.
Proof. repeat split; vm_compute; reflexivity. Qed.

(** C7: on fraction [0.9, 0.5, 0.1] the sample at index 1 equals 0.5, no
    pair passes the two strict tests, and the extraction ends in IndexError
    instead of returning coordinate[1]. *)
Theorem exact_threshold_raises :
  nth_error [0.9; 0.5; 0.1]%float 1 = Some 0.5%float /\
  free_surface Np.interp None [0; 1; 2]%float [0.9; 0.5; 0.1]%float
    = Raise IndexError.
Proof. split; vm_compute; reflexivity. Qed.

(** C2 as stated fails: fraction [0.9, 0.8] has no pair around 0.5, and the
    exception raised is not NoCrossingFound. *)
Lemma no_crossing_not_NoCrossingFound :
  (forall j, descending [0.9; 0.8]%float j = false) /\
  (forall j, ascending [0.9; 0.8]%float j = false) /\
  free_surface Np.interp None [0; 1]%float [0.9; 0.8]%float
    <> Raise "NoCrossingFound".
Proof.
  repeat split; try (intros [|[|[|j]]]; reflexivity).
  vm_compute. discriminate.
Qed.

Lemma no_crossing_selects_no_pair_witness :
  (forall j, crossing_test [0.9; 0.8]%float j <> Return true) /\
  (forall i, ~ (scan [0.9; 0.8]%float None = Return (Some i) /\
                S i < List.length [0.9; 0.8]%float)) /\
  free_surface Np.interp None [0; 1]%float [0.9; 0.8]%float
    <> Raise "NoCrossingFound".
Proof.
  apply (no_crossing_selects_no_pair Np.interp None [0; 1]%float [0.9; 0.8]%float).
  - intros [|[|[|j]]]; reflexivity.
  - intros [|[|[|j]]]; reflexivity.
Defined.

(** C6 as stated fails: the one-sample input ends in an exception that is
    not InvalidInput. *)
Lemma short_input_not_InvalidInput :
  List.length [0.9]%float < 2 /\
  free_surface Np.interp None [0]%float [0.9]%float <> Raise "InvalidInput".
Proof.
  split; [cbn; lia|]. vm_compute. discriminate.
Qed.

(** Sequences of different lengths are not rejected as such. *)
Example unequal_lengths_accepted :
  free_surface Np.interp None [0; 1; 2]%float [0.9; 0.1]%float
    = Return (1%float, Some 0).
Proof. vm_compute. reflexivity. Qed.

Lemma short_input_raises_witness :
  free_surface Np.interp None [0]%float [0.9]%float = Raise IndexError.
Proof.
  apply (short_input_raises Np.interp None [0]%float [0.9]%float).
  cbn. lia.
Defined.

Lemma first_crossing_wins_witness :
  free_surface Np.interp None [0; 1; 2; 3]%float [0.9; 0.1; 0.9; 0.1]%float =
  (ys <- Np.interp 0.5%float [0.9; 0.1]%float [0; 1]%float ;; Return (ys, Some 0)).
Proof.
  apply (first_crossing_wins Np.interp None
           [0; 1; 2; 3]%float [0.9; 0.1; 0.9; 0.1]%float 0 2).
  - reflexivity.
  - split; [reflexivity|]. intros j Hj. lia.
  - lia.
  - reflexivity.
Defined.

(** ** Strings *)

Lemma append_nil_r (s : string) : (s ++ EmptyString)%string = s.
Proof. induction s as [|c s IH]; cbn; [reflexivity|]. rewrite IH. reflexivity. Qed.

Lemma append_assoc (s t u : string) :
  ((s ++ t) ++ u)%string = (s ++ (t ++ u))%string.
Proof. induction s as [|c s IH]; cbn; [reflexivity|]. rewrite IH. reflexivity. Qed.

Lemma length_append (s t : string) :
  String.length (s ++ t) = String.length s + String.length t.
Proof. induction s as [|c s IH]; cbn; [reflexivity|]. rewrite IH. reflexivity. Qed.

Lemma drop_append (s t : string) : drop (String.length s) (s ++ t) = t.
Proof. induction s as [|c s IH]; cbn; [destruct t; reflexivity|]. exact IH. Qed.

Lemma drop_split (n : nat) (s : string) :
  exists stem, s = (stem ++ drop n s)%string.
Proof.
  revert s. induction n as [|n IH]; intros s.
  - exists EmptyString. destruct s; reflexivity.
  - destruct s as [|c s].
    + exists EmptyString. reflexivity.
    + destruct (IH s) as [stem Hs]. exists (String c stem).
      cbn. rewrite <- Hs. reflexivity.
Qed.

(** The slice [s[-k:]] equals a string of [k] characters exactly when [s]
    ends with it. *)
Lemma last_chars_suffix (s suf : string) :
  last_chars (String.length suf) s = suf <-> exists stem, s = (stem ++ suf)%string.
Proof.
  unfold last_chars. split.
  - intros H. destruct (drop_split (String.length s - String.length suf) s) as [stem Hs].
    exists stem. rewrite H in Hs. exact Hs.
  - intros [stem ->]. rewrite length_append.
    replace (String.length stem + String.length suf - String.length suf)
      with (String.length stem) by lia.
    apply drop_append.
Qed.

Lemma csv_name_present (name : string) :
  has_csv_extension name -> csv_name name = name.
Proof.
  intros H. unfold csv_name.
  apply (last_chars_suffix name ".csv") in H. cbn [String.length] in H.
  rewrite H. reflexivity.
Qed.

Lemma csv_name_absent (name : string) :
  ~ has_csv_extension name -> csv_name name = (name ++ ".csv")%string.
Proof.
  intros H. unfold csv_name.
  destruct (String.eqb_spec (last_chars 4 name) ".csv") as [Heq|Hne]; [|reflexivity].
  exfalso. apply H. apply (last_chars_suffix name ".csv"). exact Heq.
Qed.

(** ** The writer *)

Section WriterFacts.

Variable float_str : float -> string.

Lemma write_rows_from (data : list row) (written : string) :
  fold_left (fun w r => (w ++ format_row float_str r)%string) data written =
  (written ++ String.concat EmptyString (map (csv_line float_str) data))%string.
Proof.
  revert written. induction data as [|r data IH]; intros written; cbn [fold_left map].
  - cbn. rewrite append_nil_r. reflexivity.
  - rewrite IH, append_assoc. f_equal.
    destruct data as [|r' data]; cbn [map String.concat].
    + rewrite append_nil_r. reflexivity.
    + reflexivity.
Qed.

Lemma write_rows_lines (data : list row) :
  write_rows float_str data = String.concat EmptyString (map (csv_line float_str) data).
Proof. unfold write_rows. rewrite write_rows_from. reflexivity. Qed.

Lemma write_rows_app (d1 d2 : list row) :
  write_rows float_str (d1 ++ d2) =
  (write_rows float_str d1 ++ write_rows float_str d2)%string.
Proof.
  unfold write_rows. rewrite fold_left_app, !write_rows_from. reflexivity.
Qed.

End WriterFacts.

(** ** The calculator *)

Section CalculatorFacts.

Variable glob : string -> list string.
Variable listdir : string -> outcome (list string).
Variable loadtxt : string -> outcome ndarray.
Variable np_interp : float -> list float -> list float -> outcome float.
Variable open_w : string -> outcome unit.
Variable float_str : float -> string.

(** C8: when the file can be opened, the text written is the lines
    [label, value] of the rows, one per row and in their order, each ended
    by a newline and nothing before them; the file name is the given one
    when it ends in [.csv] and the given one followed by [.csv] otherwise. *)
Theorem write_csv_format (data : list row) (outputCsvFile : string) :
  open_w (csv_name outputCsvFile) = Return tt ->
  exists name text,
    write_csv open_w float_str data outputCsvFile = Return (name, text) /\
    text = String.concat EmptyString (map (csv_line float_str) data) /\
    (has_csv_extension outputCsvFile -> name = outputCsvFile) /\
    (~ has_csv_extension outputCsvFile -> name = (outputCsvFile ++ ".csv")%string).
Proof.
  intros Hopen. unfold write_csv. rewrite Hopen. cbn [bind].
  eexists. eexists. split; [reflexivity|].
  split; [apply write_rows_lines|].
  split; [apply csv_name_present|apply csv_name_absent].
Qed.

(** The entries a pass appends do not depend on those already held. *)
Lemma calculate_dirs_appends (dirs : list string) :
  forall data i,
    calculate_dirs listdir loadtxt np_interp dirs data i =
    (new <- calculate_dirs listdir loadtxt np_interp dirs [] i ;;
     Return (data ++ new)).
Proof.
  induction dirs as [|dir dirs IH]; intros data i; cbn [calculate_dirs].
  - cbn [bind]. rewrite app_nil_r. reflexivity.
  - destruct (listdir dir) as [files|e]; cbn [bind]; [|reflexivity].
    destruct (select_file files) as [f|]; cbn [bind]; [|reflexivity].
    destruct (loadtxt (path_join dir f)) as [table|e]; cbn [bind]; [|reflexivity].
    destruct (extract np_interp i table) as [r|e]; cbn [bind]; [|reflexivity].
    rewrite (IH (data ++ _)), (IH ([] ++ _)).
    destruct (calculate_dirs listdir loadtxt np_interp dirs [] (snd r)) as [new|e];
      cbn [bind]; [|reflexivity].
    rewrite <- app_assoc. reflexivity.
Qed.

End CalculatorFacts.

(** ** Two calls on one instance *)

(** A pass depends on the file system through the listings of the
    directories and the tables of the files selected in them. *)
Lemma calculate_dirs_same_readings
    (listdir listdir' : string -> outcome (list string))
    (loadtxt loadtxt' : string -> outcome ndarray)
    (np_interp : float -> list float -> list float -> outcome float)
    (dirs : list string) :
  (forall dir, In dir dirs -> listdir' dir = listdir dir) ->
  (forall dir files f,
      In dir dirs -> listdir dir = Return files -> select_file files = Some f ->
      loadtxt' (path_join dir f) = loadtxt (path_join dir f)) ->
  forall data i,
    calculate_dirs listdir' loadtxt' np_interp dirs data i =
    calculate_dirs listdir loadtxt np_interp dirs data i.
Proof.
  induction dirs as [|dir dirs IH]; intros Hlist Hload data i; [reflexivity|].
  cbn [calculate_dirs]. rewrite (Hlist dir) by (left; reflexivity).
  destruct (listdir dir) as [files|e] eqn:Hfiles; cbn [bind]; [|reflexivity].
  destruct (select_file files) as [f|] eqn:Hsel; cbn [bind]; [|reflexivity].
  rewrite (Hload dir files f) by (assumption || (left; reflexivity)).
  destruct (loadtxt (path_join dir f)) as [table|e]; cbn [bind]; [|reflexivity].
  destruct (extract np_interp i table) as [r|e]; cbn [bind]; [|reflexivity].
  apply IH.
  - intros d Hd. apply Hlist. right. exact Hd.
  - intros d fs' f' Hd. apply Hload. right. exact Hd.
Qed.

Section SequenceFacts.

Variable fs : Type.
Variable glob : fs -> string -> list string.
Variable listdir : fs -> string -> outcome (list string).
Variable loadtxt : fs -> string -> outcome ndarray.
Variable open_w : fs -> string -> outcome unit.
Variable create : fs -> string -> string -> fs.
Variable np_interp : float -> list float -> list float -> outcome float.
Variable float_str : float -> string.

(** C9, amended: after a first successful [writeCsvOutput] on a fresh
    instance, which leaves its file in the file system, a second call that
    globs the same directories, finds the same listings in them and the same
    tables in the files selected, and can open its output, holds every
    entry twice in [_data] and writes the text of the first file twice
    over. *)
Theorem second_call_duplicates_same_tree (parentDir out1 out2 : string)
    (st st1 : fs) (s1 : FreeSurfaceCalculator) :
  writeCsvOutput_fs fs glob listdir loadtxt open_w create np_interp float_str
    st (__init__ parentDir) out1 = Return (s1, st1) ->
  glob st1 (path_join parentDir "[0-9]*") = glob st (path_join parentDir "[0-9]*") ->
  (forall dir, In dir (glob st (path_join parentDir "[0-9]*")) ->
               listdir st1 dir = listdir st dir) ->
  (forall dir files f,
      In dir (glob st (path_join parentDir "[0-9]*")) ->
      listdir st dir = Return files -> select_file files = Some f ->
      loadtxt st1 (path_join dir f) = loadtxt st (path_join dir f)) ->
  open_w st1 (csv_name out2) = Return tt ->
  st1 = create st (csv_name out1) (write_rows float_str (_data s1)) /\
  exists s2,
    writeCsvOutput_fs fs glob listdir loadtxt open_w create np_interp float_str
      st1 s1 out2
    = Return (s2, create st1 (csv_name out2)
                    (write_rows float_str (_data s1) ++
                     write_rows float_str (_data s1))%string) /\
    _data s2 = _data s1 ++ _data s1.
Proof.
  intros Hfirst Hglob Hlist Hload Hopen.
  unfold writeCsvOutput_fs, writeCsvOutput, _calculate, write_csv in Hfirst |- *.
  cbn [__init__ _parentDir _data] in Hfirst.
  destruct (calculate_dirs (listdir st) (loadtxt st) np_interp
              (glob st (path_join parentDir "[0-9]*")) [] None) as [d|e] eqn:Hd;
    cbn [bind] in Hfirst; [|discriminate].
  destruct (open_w st (csv_name out1)); cbn [bind fst snd _data] in Hfirst;
    [|discriminate].
  injection Hfirst as Hs1 Hst1. subst s1. cbn [_parentDir _data].
  split; [symmetry; exact Hst1|].
  rewrite Hglob.
  rewrite (calculate_dirs_same_readings (listdir st) (listdir st1)
             (loadtxt st) (loadtxt st1) np_interp _ Hlist Hload).
  rewrite calculate_dirs_appends, Hd. cbn [bind _data].
  rewrite Hopen. cbn [bind fst snd].
  eexists. split; [rewrite write_rows_app; reflexivity|reflexivity].
Qed.

End SequenceFacts.

(** C10: the file chosen is the first of the listing, hidden files left
    out, whose name ends in [.xy]; a name that begins with a dot is never
    chosen. *)
Theorem select_file_first_visible_xy (files : list string) :
  select_file files =
    hd_error (filter (fun f => endswith f ".xy")
                (filter (fun f => negb (startswith f ".")) files)) /\
  (forall f, select_file files = Some f ->
             startswith f "." = false /\ endswith f ".xy" = true).
Proof.
  split.
  - induction files as [|file rest IH]; cbn [select_file filter]; [reflexivity|].
    destruct (startswith file "."); cbn [negb andb].
    + rewrite andb_false_r. exact IH.
    + rewrite andb_true_r. cbn [filter].
      destruct (endswith file ".xy"); [reflexivity|exact IH].
  - induction files as [|file rest IH]; intros f; cbn [select_file]; [discriminate|].
    destruct (endswith file ".xy") eqn:Hxy, (startswith file ".") eqn:Hdot;
      cbn [negb andb]; try apply IH.
    intros Hf. injection Hf as <-. split; assumption.
Qed.

(** A file of a single row loads as a one-dimensional array, and taking its
    columns already fails. *)
Remark extract_one_dimensional (interp : float -> list float -> list float -> outcome float)
    (i0 : option nat) (v : list float) :
  extract interp i0 (Arr1 v) = Raise IndexError.
Proof. reflexivity. Qed.

(** ** The example data set *)

Example example_selection :
  select_file [".swap.xy"; "notes.txt"; "line.xy"; "other.xy"] = Some "line.xy".
Proof. reflexivity. Qed.

Example example_first_run :
  writeCsvOutput Example.glob Example.listdir Example.loadtxt Np.interp
    Example.open_w Example.float_str (__init__ ".") "heights"
  = Return (mkCalculator "." Example.data,
            ("heights.csv",
             ("0.1, 1.0" ++ newline ++ "0.2, 1.0" ++ newline)%string)).
Proof. vm_compute. reflexivity. Qed.

Lemma write_csv_format_witness :
  exists name text,
    write_csv Example.open_w Example.float_str Example.data "heights"
      = Return (name, text) /\
    text = String.concat EmptyString (map (csv_line Example.float_str) Example.data) /\
    (has_csv_extension "heights" -> name = "heights") /\
    (~ has_csv_extension "heights" -> name = "heights.csv").
Proof.
  apply (write_csv_format Example.open_w Example.float_str Example.data "heights").
  reflexivity.
Defined.

(** C9 as stated fails: the first call leaves [0out.csv] in the parent
    directory, the glob of the second call returns it, [os.listdir] of a
    regular file raises, and no second file is written. *)
Lemma second_call_fails_on_numbered_output :
  Disk.run Disk.one_timestep (__init__ ".") "0out"
    = Return (mkCalculator "." Disk.first_rows,
              Disk.create Disk.one_timestep "0out.csv" Disk.first_text) /\
  Disk.glob (Disk.create Disk.one_timestep "0out.csv" Disk.first_text) "./[0-9]*"
    = ["./0.1"; "./0out.csv"] /\
  Disk.run (Disk.create Disk.one_timestep "0out.csv" Disk.first_text)
      (mkCalculator "." Disk.first_rows) "again"
    = Raise "NotADirectoryError".
Proof. repeat split; vm_compute; reflexivity. Qed.

Lemma second_call_duplicates_same_tree_witness :
  Disk.create Disk.one_timestep "heights.csv" Disk.first_text
    = Disk.create Disk.one_timestep (csv_name "heights")
        (write_rows Example.float_str Disk.first_rows) /\
  exists s2,
    Disk.run (Disk.create Disk.one_timestep "heights.csv" Disk.first_text)
      (mkCalculator "." Disk.first_rows) "again"
    = Return (s2,
              Disk.create (Disk.create Disk.one_timestep "heights.csv" Disk.first_text)
                (csv_name "again")
                (write_rows Example.float_str Disk.first_rows ++
                 write_rows Example.float_str Disk.first_rows)%string) /\
    _data s2 = Disk.first_rows ++ Disk.first_rows.
Proof.
  apply (second_call_duplicates_same_tree Disk.state Disk.glob Disk.listdir
           Disk.loadtxt Disk.open_w Disk.create Np.interp Example.float_str
           "." "heights" "again" Disk.one_timestep
           (Disk.create Disk.one_timestep "heights.csv" Disk.first_text)
           (mkCalculator "." Disk.first_rows)).
  - vm_compute. reflexivity.
  - reflexivity.
  - intros dir [<-|[]]. reflexivity.
  - intros dir files f [<-|[]] Hfiles Hsel.
    vm_compute in Hfiles. injection Hfiles as <-.
    vm_compute in Hsel. injection Hsel as <-.
    reflexivity.
  - reflexivity.
Defined.

(** * Further properties of the code *)

(** ** One timestep *)

Lemma column_rows_length (k : nat) (rows : list (list float)) :
  forall v, column_rows k rows = Return v -> List.length v = List.length rows.
Proof.
  induction rows as [|r rows IH]; intros v H; cbn [column_rows] in H.
  - injection H as <-. reflexivity.
  - destruct (getitem r k); cbn [bind] in H; [|discriminate].
    destruct (column_rows k rows) as [vs|]; cbn [bind] in H; [|discriminate].
    injection H as <-. cbn [List.length]. f_equal. apply IH. reflexivity.
Qed.

(** Below any index there is a first descending pair or none at all. *)
Lemma first_crossing_below (alpha : list float) (n : nat) :
  (forall k, k < n -> descending alpha k = false) \/
  (exists i, i < n /\ first_crossing alpha i).
Proof.
  induction n as [|n [Hnone|(i & Hi & Hfirst)]].
  - left. intros k Hk. lia.
  - destruct (descending alpha n) eqn:Hd.
    + right. exists n. split; [lia|]. split; assumption.
    + left. intros k Hk. destruct (Nat.eq_dec k n) as [->|]; [assumption|].
      apply Hnone. lia.
  - right. exists i. split; [lia|assumption].
Qed.

Lemma first_crossing_exists (alpha : list float) (j : nat) :
  descending alpha j = true -> exists i, first_crossing alpha i.
Proof.
  intros Hd. destruct (first_crossing_below alpha (S j)) as [Hnone|(i & _ & Hfirst)].
  - rewrite Hnone in Hd by lia. discriminate.
  - exists i. exact Hfirst.
Qed.

(** X1: on a two-dimensional table whose second column has its first
    descending pair at rows [i] and [i+1], the height logged is the first
    column's entry of row [i+1]; the two columns cannot differ in length. *)
Theorem extract_logs_upper_sample (i0 : option nat) (rows : list (list float))
    (y alpha : list float) (i : nat) :
  column 0 (Arr2 rows) = Return y ->
  column 1 (Arr2 rows) = Return alpha ->
  first_crossing alpha i ->
  List.length y = List.length alpha /\
  extract Np.interp i0 (Arr2 rows) = Return (nth (S i) y nan, Some i).
Proof.
  intros Hy Halpha Hfirst.
  assert (List.length y = List.length alpha) as Hlen.
  { cbn [column] in Hy, Halpha.
    rewrite (column_rows_length 0 rows y Hy).
    rewrite (column_rows_length 1 rows alpha Halpha). reflexivity. }
  split; [exact Hlen|].
  unfold extract. rewrite Hy, Halpha. cbn [bind].
  apply free_surface_descending; [assumption|].
  rewrite Hlen. apply descending_inside, Hfirst.
Qed.

(** X2: the binding of [i] left by an earlier timestep has no part in the
    result of a table that is not the empty two-dimensional one: the loop
    rebinds [i] before it is read. *)
Theorem stale_index_irrelevant
    (interp : float -> list float -> list float -> outcome float)
    (i0 : option nat) (table : ndarray) :
  table <> Arr2 [] ->
  extract interp i0 table = extract interp None table.
Proof.
  intros Hne. destruct table as [v|rows]; [reflexivity|].
  unfold extract.
  destruct (column 0 (Arr2 rows)) as [y|e]; cbn [bind]; [|reflexivity].
  destruct (column 1 (Arr2 rows)) as [alpha|e] eqn:Halpha; cbn [bind]; [|reflexivity].
  apply column_rows_length in Halpha.
  destruct rows as [|r rows]; [congruence|].
  destruct alpha as [|a alpha]; [discriminate|].
  reflexivity.
Qed.

(** X3: for sequences of equal length, the extraction with numpy's routine
    returns a height exactly when the fraction sequence has a strict
    descending pair; in every other case it ends in an exception. *)
Theorem extraction_succeeds_iff_descending (i0 : option nat) (y alpha : list float) :
  List.length y = List.length alpha ->
  ((exists r, free_surface Np.interp i0 y alpha = Return r) <->
   (exists j, descending alpha j = true)).
Proof.
  intros Hlen. split.
  - intros [r Hr]. unfold free_surface in Hr.
    destruct (scan alpha i0) as [i|e] eqn:Hscan; cbn [bind] in Hr; [|discriminate].
    apply scan_from_sound in Hscan.
    destruct Hscan as [[Hz ->]|[(j & _ & _ & Hd & _)|(Hpos & -> & _)]].
    + destruct alpha; [|discriminate].
      destruct i0 as [n|]; cbn [load_i bind] in Hr; [|discriminate].
      rewrite getitem_outside in Hr by (cbn; lia). discriminate.
    + exists j. exact Hd.
    + cbn [load_i bind] in Hr.
      destruct (getitem alpha (0 + List.length alpha - 1)); cbn [bind] in Hr;
        [|discriminate].
      rewrite getitem_outside in Hr by lia. discriminate.
  - intros [j Hd]. destruct (first_crossing_exists alpha j Hd) as [i Hfirst].
    eexists. apply (free_surface_descending i0 y alpha i Hfirst).
    rewrite Hlen. apply descending_inside, Hfirst.
Qed.

(** ** The run over the directories *)

Lemma select_file_none (files : list string) :
  Forall (fun f => endswith f ".xy" = false \/ startswith f "." = true) files ->
  select_file files = None.
Proof.
  induction 1 as [|f files [Hxy|Hdot] _ IH]; cbn [select_file]; [reflexivity| |].
  - rewrite Hxy. exact IH.
  - rewrite Hdot, andb_false_r. exact IH.
Qed.

Section RunFacts.

Variable glob : string -> list string.
Variable listdir : string -> outcome (list string).
Variable loadtxt : string -> outcome ndarray.
Variable np_interp : float -> list float -> list float -> outcome float.
Variable open_w : string -> outcome unit.
Variable float_str : float -> string.

(** A pass that succeeds adds one entry per directory, labelled by the
    directory's base name, in the order of the directories. *)
Lemma calculate_dirs_labels (dirs : list string) :
  forall i new,
    calculate_dirs listdir loadtxt np_interp dirs [] i = Return new ->
    map fst new = map basename dirs.
Proof.
  induction dirs as [|dir dirs IH]; intros i new H; cbn [calculate_dirs] in H.
  - injection H as <-. reflexivity.
  - destruct (listdir dir) as [files|e]; cbn [bind] in H; [|discriminate].
    destruct (select_file files) as [f|]; cbn [bind] in H; [|discriminate].
    destruct (loadtxt (path_join dir f)) as [table|e]; cbn [bind] in H; [|discriminate].
    destruct (extract np_interp i table) as [r|e]; cbn [bind] in H; [|discriminate].
    rewrite calculate_dirs_appends in H.
    destruct (calculate_dirs listdir loadtxt np_interp dirs [] (snd r)) as [rest|e] eqn:Hrest;
      cbn [bind] in H; [|discriminate].
    injection H as <-. cbn [app map fst]. f_equal. apply (IH _ _ Hrest).
Qed.

Lemma calculate_dirs_missing (dir : string) (files : list string) (dirs : list string) :
  In dir dirs ->
  listdir dir = Return files ->
  select_file files = None ->
  forall data i, raises (calculate_dirs listdir loadtxt np_interp dirs data i).
Proof.
  intros Hin Hlist Hnone.
  induction dirs as [|d dirs IH]; intros data i; [contradiction|].
  cbn [calculate_dirs].
  destruct (listdir d) as [fs|e] eqn:Hd; cbn [bind]; [|eexists; reflexivity].
  destruct (select_file fs) as [f|] eqn:Hsel; cbn [bind]; [|eexists; reflexivity].
  destruct (loadtxt (path_join d f)) as [table|e]; cbn [bind]; [|eexists; reflexivity].
  destruct (extract np_interp i table) as [r|e]; cbn [bind]; [|eexists; reflexivity].
  destruct Hin as [->|Hin]; [congruence|].
  apply IH. exact Hin.
Qed.

Lemma calculate_rows (self self' : FreeSurfaceCalculator) :
  _calculate glob listdir loadtxt np_interp self = Return self' ->
  _parentDir self' = _parentDir self /\
  exists new,
    _data self' = _data self ++ new /\
    map fst new = map basename (glob (path_join (_parentDir self) "[0-9]*")).
Proof.
  unfold _calculate. rewrite calculate_dirs_appends.
  destruct (calculate_dirs listdir loadtxt np_interp
              (glob (path_join (_parentDir self) "[0-9]*")) [] None) as [new|e] eqn:Hnew;
    cbn [bind]; [|discriminate].
  intros H. injection H as <-. cbn [_parentDir _data].
  split; [reflexivity|]. exists new. split; [reflexivity|].
  apply (calculate_dirs_labels _ _ _ Hnew).
Qed.

(** X4: a pass of [_calculate] that succeeds leaves [_parentDir] alone,
    keeps every entry [_data] held, and appends one entry per directory the
    glob returned, labelled by the directory's base name, in glob order. *)
Theorem calculate_appends_one_row_per_directory (self self' : FreeSurfaceCalculator) :
  _calculate glob listdir loadtxt np_interp self = Return self' ->
  _parentDir self' = _parentDir self /\
  exists new,
    _data self' = _data self ++ new /\
    map fst new = map basename (glob (path_join (_parentDir self) "[0-9]*")).
Proof. exact (calculate_rows self self'). Qed.

(** X5: when one of the directories the glob returned lists no file that
    ends in [.xy] and is not hidden, [writeCsvOutput] ends in an exception
    and writes nothing, whatever the other directories hold. *)
Theorem missing_profile_fails_run (self : FreeSurfaceCalculator) (out dir : string)
    (files : list string) :
  In dir (glob (path_join (_parentDir self) "[0-9]*")) ->
  listdir dir = Return files ->
  Forall (fun f => endswith f ".xy" = false \/ startswith f "." = true) files ->
  raises (writeCsvOutput glob listdir loadtxt np_interp open_w float_str self out).
Proof.
  intros Hin Hlist Hfiles. apply select_file_none in Hfiles.
  unfold writeCsvOutput, _calculate.
  destruct (calculate_dirs_missing dir files _ Hin Hlist Hfiles (_data self) None)
    as [e He].
  rewrite He. exists e. reflexivity.
Qed.

(** X6: with no timestep directory a new calculator writes an empty file
    and stays as it was. *)
Theorem no_directories_writes_empty_file (parentDir out : string) :
  glob (path_join parentDir "[0-9]*") = [] ->
  open_w (csv_name out) = Return tt ->
  writeCsvOutput glob listdir loadtxt np_interp open_w float_str
    (__init__ parentDir) out
  = Return (__init__ parentDir, (csv_name out, EmptyString)).
Proof.
  intros Hglob Hopen.
  unfold writeCsvOutput, _calculate, write_csv, __init__. cbn [_parentDir _data].
  rewrite Hglob. cbn [calculate_dirs bind]. rewrite Hopen. reflexivity.
Qed.

(** X7: a run of the script that succeeds globs under the directory given,
    or under [.] when none was given, and writes one line per directory
    found, labelled by its base name and in glob order, to the output name
    completed by [.csv]. *)
Theorem script_one_line_per_directory (dir : option string) (out : string)
    (calculator : FreeSurfaceCalculator) (name text : string) :
  writeFreeSurfaceCsv glob listdir loadtxt np_interp open_w float_str dir out
    = Return (calculator, (name, text)) ->
  name = csv_name out /\
  map fst (_data calculator) =
    map basename (glob (path_join (match dir with Some d => d | None => "." end)
                                  "[0-9]*")) /\
  text = String.concat EmptyString (map (csv_line float_str) (_data calculator)).
Proof.
  unfold writeFreeSurfaceCsv, writeCsvOutput, write_csv. cbn zeta.
  destruct (_calculate glob listdir loadtxt np_interp (__init__ (parent_dir dir)))
    as [self'|e] eqn:Hcalc; cbn [bind]; [|discriminate].
  destruct (open_w (csv_name out)); cbn [bind]; [|discriminate].
  intros H. injection H as <- <- <-.
  split; [reflexivity|].
  destruct (calculate_rows _ _ Hcalc) as (_ & new & Hdata & Hlabels).
  cbn [__init__ _data _parentDir app] in Hdata, Hlabels.
  split; [|apply write_rows_lines].
  rewrite Hdata, Hlabels. destruct dir; reflexivity.
Qed.

End RunFacts.

(** ** Names *)

(** X8: the output name always ends in [.csv], and completing a name twice
    changes nothing more. *)
Theorem csv_name_idempotent (name : string) :
  has_csv_extension (csv_name name) /\ csv_name (csv_name name) = csv_name name.
Proof.
  assert (has_csv_extension (csv_name name)) as Hext.
  { unfold csv_name.
    destruct (String.eqb_spec (last_chars 4 name) ".csv") as [Heq|Hne]; cbn [negb].
    - apply (last_chars_suffix name ".csv"). exact Heq.
    - exists name. reflexivity. }
  split; [exact Hext|]. apply csv_name_present. exact Hext.
Qed.

Lemma basename_from_slash_free (name : string) :
  slash_free name = true -> forall cur, basename_from cur name = cur.
Proof.
  induction name as [|c name IH]; intros Hfree cur; cbn [basename_from]; [reflexivity|].
  cbn [slash_free] in Hfree. apply andb_prop in Hfree. destruct Hfree as [Hc Hfree].
  apply negb_true_iff in Hc. rewrite Hc. apply IH. exact Hfree.
Qed.

Lemma basename_from_after_slash (name : string) :
  slash_free name = true ->
  forall front cur, basename_from cur (front ++ String "/" name) = name.
Proof.
  intros Hfree. induction front as [|c front IH]; intros cur.
  - cbn. apply basename_from_slash_free. exact Hfree.
  - cbn [append basename_from]. destruct (Ascii.eqb c "/"); apply IH.
Qed.

Lemma slash_free_not_absolute (name : string) :
  slash_free name = true -> startswith name "/" = false.
Proof.
  destruct name as [|c name]; [reflexivity|].
  cbn [slash_free]. intros H. apply andb_prop in H. destruct H as [Hc _].
  apply negb_true_iff in Hc. unfold startswith. cbn [prefix].
  destruct (ascii_dec "/" c) as [<-|_]; [discriminate Hc|reflexivity].
Qed.

(** X9: the label of a timestep is the name of its directory: the base
    name of a parent directory joined with a slash-free name is that name,
    with or without a slash at the end of the parent. *)
Theorem basename_of_joined_name (parent name : string) :
  slash_free name = true ->
  basename (path_join parent name) = name.
Proof.
  intros Hfree. unfold basename, path_join.
  rewrite (slash_free_not_absolute name Hfree).
  destruct (String.eqb_spec parent EmptyString) as [->|Hne]; cbn [orb].
  - cbn [append]. apply basename_from_slash_free. exact Hfree.
  - destruct (endswith parent "/") eqn:Hend.
    + unfold endswith in Hend. apply String.eqb_eq in Hend.
      apply (last_chars_suffix parent "/") in Hend. destruct Hend as [stem ->].
      rewrite append_assoc. cbn [append].
      apply basename_from_after_slash. exact Hfree.
    + cbn [append]. apply basename_from_after_slash. exact Hfree.
Qed.

(** ** Instances *)

Lemma extract_logs_upper_sample_witness :
  List.length [0; 1; 2; 3]%float = List.length [0.9; 0.6; 0.4; 0.1]%float /\
  extract Np.interp None (Arr2 Edge.table) = Return (2%float, Some 1).
Proof.
  apply (extract_logs_upper_sample None Edge.table
           [0; 1; 2; 3]%float [0.9; 0.6; 0.4; 0.1]%float 1).
  - reflexivity.
  - reflexivity.
  - split; [reflexivity|]. intros [|j] Hj; [reflexivity|lia].
Defined.

Lemma stale_index_irrelevant_witness :
  extract Np.interp (Some 7) (Arr2 Edge.table) = extract Np.interp None (Arr2 Edge.table).
Proof.
  apply (stale_index_irrelevant Np.interp (Some 7) (Arr2 Edge.table)).
  discriminate.
Defined.

Lemma extraction_succeeds_iff_descending_witness :
  (exists r, free_surface Np.interp None [0; 1; 2]%float [0.9; 0.6; 0.1]%float = Return r)
  <-> (exists j, descending [0.9; 0.6; 0.1]%float j = true).
Proof.
  apply (extraction_succeeds_iff_descending None [0; 1; 2]%float [0.9; 0.6; 0.1]%float).
  reflexivity.
Defined.

Lemma calculate_appends_one_row_per_directory_witness :
  _parentDir (mkCalculator "." (Example.data ++ Example.data)) = "." /\
  exists new,
    Example.data ++ Example.data = Example.data ++ new /\
    map fst new = map basename (Example.glob (path_join "." "[0-9]*")).
Proof.
  apply (calculate_appends_one_row_per_directory
           Example.glob Example.listdir Example.loadtxt Np.interp
           (mkCalculator "." Example.data)
           (mkCalculator "." (Example.data ++ Example.data))).
  vm_compute. reflexivity.
Defined.

Lemma missing_profile_fails_run_witness :
  raises (writeCsvOutput Example.glob Edge.listdir_hidden Example.loadtxt Np.interp
            Example.open_w Example.float_str (__init__ ".") "heights").
Proof.
  apply (missing_profile_fails_run Example.glob Edge.listdir_hidden Example.loadtxt
           Np.interp Example.open_w Example.float_str
           (__init__ ".") "heights" "./0.2" [".swap.xy"; "notes.txt"]).
  - right. left. reflexivity.
  - reflexivity.
  - constructor; [right; reflexivity|].
    constructor; [left; reflexivity|]. constructor.
Defined.

Lemma no_directories_writes_empty_file_witness :
  writeCsvOutput Edge.glob_none Example.listdir Example.loadtxt Np.interp
    Example.open_w Example.float_str (__init__ ".") "heights"
  = Return (__init__ ".", (csv_name "heights", EmptyString)).
Proof.
  apply (no_directories_writes_empty_file Edge.glob_none Example.listdir
           Example.loadtxt Np.interp Example.open_w Example.float_str "." "heights").
  - reflexivity.
  - reflexivity.
Defined.

Lemma script_one_line_per_directory_witness :
  "heights.csv" = csv_name "heights" /\
  map fst Example.data = map basename (Example.glob (path_join "." "[0-9]*")) /\
  ("0.1, 1.0" ++ newline ++ "0.2, 1.0" ++ newline)%string
    = String.concat EmptyString (map (csv_line Example.float_str) Example.data).
Proof.
  apply (script_one_line_per_directory Example.glob Example.listdir Example.loadtxt
           Np.interp Example.open_w Example.float_str
           None "heights" (mkCalculator "." Example.data) "heights.csv"
           ("0.1, 1.0" ++ newline ++ "0.2, 1.0" ++ newline)%string).
  vm_compute. reflexivity.
Defined.

Lemma basename_of_joined_name_witness :
  basename (path_join "./case" "0.1") = "0.1".
Proof.
  apply (basename_of_joined_name "./case" "0.1"). reflexivity.
Defined.

